(* ===================================================================== *)
(* assistant.py: a LiveKit voice assistant.                               *)
(*                                                                        *)
(* Shallow embedding of the script's own logic: the response coroutine    *)
(* `_answer`, the two event handlers, `get_video_track`, the media loop   *)
(* of `entrypoint`, and the `__main__` block that builds the access       *)
(* token.  The framework (LLM, TTS, room transport, JWT signing) is       *)
(* external to the script and enters as section variables.                *)
(* ===================================================================== *)

From Stdlib Require Import Ascii String ZArith.
From stdpp Require Import gmap strings list fin_maps.

Local Open Scope string_scope.
Local Open Scope list_scope.

(* --------------------------------------------------------------------- *)
(* Python values used by the script                                       *)
(* --------------------------------------------------------------------- *)

(** Truth value of a Python object, as tested by `if x:` and `not x`. *)
Class Truthy (A : Type) := truthy : A -> bool.

(** A `str` is true exactly when it is not the empty string. *)
#[global] Instance str_truthy : Truthy string :=
  fun s => match s with EmptyString => false | String _ _ => true end.

(** `None` is false; otherwise the truth value of the object. *)
#[global] Instance option_truthy {A} `{Truthy A} : Truthy (option A) :=
  fun o => match o with None => false | Some a => truthy a end.

(** The exceptions the modelled code can raise. *)
Inductive Exc :=
| ValueError (msg : string)
| IndexError
| InvalidStateError
| TypeError (msg : string)
| ExternalError (what : string).

Inductive Result (A : Type) :=
| Ok (a : A)
| Raise (e : Exc).
Arguments Ok {A} a.
Arguments Raise {A} e.

(** Python's `str.isspace` characters in the ASCII range. *)
Definition is_whitespace (c : ascii) : bool :=
  let n := nat_of_ascii c in
  Nat.eqb n 32 || (Nat.leb 9 n && Nat.leb n 13) || (Nat.leb 28 n && Nat.leb n 31).

(** A text that `strip()` reduces to the empty string. *)
Fixpoint whitespace_only (s : string) : bool :=
  match s with
  | EmptyString => true
  | String c rest => is_whitespace c && whitespace_only rest
  end.

(* --------------------------------------------------------------------- *)
(* Data model                                                             *)
(* --------------------------------------------------------------------- *)

(** `rtc.VideoFrame`: an object without `__bool__` or `__len__`, hence
    always true when present. *)
Record VideoFrame := { frame_width : Z; frame_height : Z; frame_data : list Z }.

#[global] Instance frame_truthy : Truthy VideoFrame := fun _ => true.

(** `ChatImage(image=...)`. *)
Record ChatImage := { image : VideoFrame }.

(** An element of `content: list[str | ChatImage]`. *)
Inductive ContentItem :=
| CText (text : string)
| CImage (img : ChatImage).

(** `ChatMessage.content`: a plain `str` (the system prompt) or a list. *)
Inductive Content :=
| ContentStr (s : string)
| ContentList (items : list ContentItem).

(** `ChatMessage(role=..., content=...)` of `livekit.agents.llm`. *)
Record ChatMessage := { role : string; content : Content }.

(** The stream returned by `gpt.chat`: a finite sequence of segments. *)
Definition LLMStream := list string.

(** First argument of `assistant.say`. *)
Inductive SaySource :=
| SayText (s : string)
| SayStream (stream : LLMStream).

(** Calls made into the framework, in the order they are made. *)
Inductive ExtCall :=
| CallChat (chat_ctx : list ChatMessage)
| CallSay (source : SaySource) (allow_interruptions : bool).

(** The variables of `entrypoint` shared between `_answer`, the handlers
    and the media loop, together with the log of framework calls. *)
Record State := {
  messages : list ChatMessage;        (* chat_context.messages *)
  latest_image : option VideoFrame;   (* latest_image *)
  calls : list ExtCall
}.

(** `chat_context` as built at the start of `entrypoint`. *)
Definition system_prompt : string :=
  "Il tuo nome è Alloy. Sei un bot divertente e spiritoso. La tua interfaccia con gli utenti sarà vocale e visiva." +:+
  "Rispondi con risposte brevi e concise. Evita di usare punteggiatura impronunciabile o emoji.".

Definition chat_context : list ChatMessage :=
  [ {| role := "system"; content := ContentStr system_prompt |} ].

Definition initial_state : State :=
  {| messages := chat_context; latest_image := None; calls := [] |}.

(* --------------------------------------------------------------------- *)
(* State and exception monad                                              *)
(* --------------------------------------------------------------------- *)

(** A computation over the shared variables that may raise.  As in Python,
    an exception does not undo the mutations made before it. *)
Definition M (A : Type) : Type := State -> State * Result A.

#[global] Instance M_ret : MRet M := fun A a st => (st, Ok a).

#[global] Instance M_bind : MBind M := fun A B f m st =>
  match m st with
  | (st', Ok a) => f a st'
  | (st', Raise e) => (st', Raise e)
  end.

Definition get_latest_image : M (option VideoFrame) :=
  fun st => (st, Ok (latest_image st)).

Definition get_messages : M (list ChatMessage) :=
  fun st => (st, Ok (messages st)).

(** `chat_context.messages.append(m)`. *)
Definition append_message (m : ChatMessage) : M unit :=
  fun st => ({| messages := messages st ++ [m];
                latest_image := latest_image st;
                calls := calls st |}, Ok tt).

(** Record a framework call and return what the framework answers. *)
Definition extcall {A} (c : ExtCall) (answer : Result A) : M A :=
  fun st => ({| messages := messages st;
                latest_image := latest_image st;
                calls := calls st ++ [c] |}, answer).

Definition get_calls : M (list ExtCall) :=
  fun st => (st, Ok (calls st)).

(* --------------------------------------------------------------------- *)
(* The response coroutine and the event handlers                          *)
(* --------------------------------------------------------------------- *)

Section Assistant.

(** `gpt.chat(chat_ctx=...)`: given the calls made so far and the chat
    context, a stream or an exception. *)
Variable gpt_chat : list ExtCall -> list ChatMessage -> Result LLMStream.

(** `assistant.say(source, allow_interruptions=...)`. *)
Variable assistant_say : list ExtCall -> SaySource -> bool -> Result unit.

Definition call_gpt_chat : M LLMStream :=
  history ← get_calls;
  ctx ← get_messages;
  extcall (CallChat ctx) (gpt_chat history ctx).

Definition call_assistant_say (source : SaySource) (allow_interruptions : bool) : M unit :=
  history ← get_calls;
  extcall (CallSay source allow_interruptions)
          (assistant_say history source allow_interruptions).

(** The content list built by the first three lines of `_answer`. *)
Definition answer_content (text : string) (use_image : bool)
    (latest : option VideoFrame) : list ContentItem :=
  let content := [CText text] in
  if use_image && truthy latest then
    match latest with
    | Some frame => content ++ [CImage {| image := frame |}]
    | None => content
    end
  else content.

Definition _answer (text : string) (use_image : bool) : M unit :=
  latest ← get_latest_image;
  let content := answer_content text use_image latest in
  append_message {| role := "user"; content := ContentList content |};;
  stream ← call_gpt_chat;
  call_assistant_say (SayStream stream) true.

(** The user turn `_answer text use_image` builds in state `st`. *)
Definition user_turn (text : string) (use_image : bool) (st : State) : ChatMessage :=
  {| role := "user";
     content := ContentList (answer_content text use_image (latest_image st)) |}.

(** The coroutine object handed to `asyncio.create_task`. *)
Inductive Task :=
| AnswerTask (text : string) (use_image : bool).

Definition run_task (t : Task) : M unit :=
  match t with
  | AnswerTask text use_image => _answer text use_image
  end.

(** A task made by `asyncio.create_task` is detached: what it raises is
    not seen by anyone, what it changed stays changed. *)
Definition run_detached (t : Task) (st : State) : State :=
  fst (run_task t st).

(** `rtc.ChatMessage`: the handler reads `msg.message`, a `str` or `None`. *)
Record RtcChatMessage := { message : option string }.

(** `@chat.on("message_received")`: the tasks the handler creates. *)
Definition on_message_received (msg : RtcChatMessage) : Result (list Task) :=
  if truthy (message msg) then
    match message msg with
    | Some text => Ok [AnswerTask text false]
    | None => Ok []
    end
  else Ok [].

(** `CalledFunction.call_info`, with the `arguments` dict.  The only
    callable, `image`, declares its one argument `user_msg` as `str`. *)
Record FunctionCallInfo := {
  tool_call_id : string;
  arguments : gmap string string
}.

Record CalledFunction := { call_info : FunctionCallInfo }.

(** `@assistant.on("function_calls_finished")`. *)
Definition on_function_calls_finished
    (called_functions : list CalledFunction) : Result (list Task) :=
  if Nat.eqb (length called_functions) 0 then Ok []
  else
    match called_functions !! 0%nat with
    | None => Raise IndexError
    | Some first =>
        let user_msg := arguments (call_info first) !! "user_msg" in
        if truthy user_msg then
          match user_msg with
          | Some text => Ok [AnswerTask text true]
          | None => Ok []
          end
        else Ok []
    end.

End Assistant.

(* --------------------------------------------------------------------- *)
(* The room and `get_video_track`                                         *)
(* --------------------------------------------------------------------- *)

(** The track of a remote publication, by its class. *)
Inductive Track :=
| RemoteVideoTrack (sid : string)
| RemoteAudioTrack (sid : string).

(** `isinstance(t, rtc.RemoteVideoTrack)`. *)
Definition is_remote_video_track (t : Track) : bool :=
  match t with
  | RemoteVideoTrack _ => true
  | RemoteAudioTrack _ => false
  end.

(** `track_publication.track` is `None` until the track is subscribed. *)
Record TrackPublication := { track : option Track }.

(** Dicts are iterated with `.items()` in insertion order, so they are
    kept as association lists. *)
Record RemoteParticipant := {
  track_publications : list (string * TrackPublication)
}.

Inductive ConnectionState :=
| CONN_DISCONNECTED
| CONN_CONNECTED
| CONN_RECONNECTING.

Record Room := {
  room_name : string;
  connection_state : ConnectionState;
  remote_participants : list (string * RemoteParticipant)
}.

(** An `asyncio.Future`: pending, or done with a result. *)
Definition Future := option Track.

(** `Future.set_result`: raises when the future is already done. *)
Definition set_result (fut : Future) (t : Track) : Result Future :=
  match fut with
  | None => Ok (Some t)
  | Some _ => Raise InvalidStateError
  end.

(** The inner `for` of `get_video_track`; its `break` leaves this loop
    only. *)
Fixpoint scan_publications (pubs : list (string * TrackPublication))
    (video_track : Future) : Result Future :=
  match pubs with
  | [] => Ok video_track
  | (_, track_publication) :: rest =>
      match track track_publication with
      | Some t =>
          if is_remote_video_track t then set_result video_track t
          else scan_publications rest video_track
      | None => scan_publications rest video_track
      end
  end.

(** The outer `for` of `get_video_track`. *)
Fixpoint scan_participants (ps : list (string * RemoteParticipant))
    (video_track : Future) : Result Future :=
  match ps with
  | [] => Ok video_track
  | (_, participant) :: rest =>
      match scan_publications (track_publications participant) video_track with
      | Ok video_track' => scan_participants rest video_track'
      | Raise e => Raise e
      end
  end.

(** `get_video_track` up to its `await`: the future is created pending
    and handed to nobody else. *)
Definition get_video_track_scan (room : Room) : Result Future :=
  scan_participants (remote_participants room) None.

(** How a coroutine call ends: with a value, with an exception, or
    suspended on a future that stays pending. *)
Inductive Outcome (A : Type) :=
| Returned (a : A)
| Raised (e : Exc)
| Suspended.
Arguments Returned {A} a.
Arguments Raised {A} e.
Arguments Suspended {A}.

(** `await video_track`. *)
Definition await_future (fut : Future) : Outcome Track :=
  match fut with
  | Some t => Returned t
  | None => Suspended
  end.

Definition get_video_track (room : Room) : Outcome Track :=
  match get_video_track_scan room with
  | Ok fut => await_future fut
  | Raise e => Raised e
  end.

(** The tracks a single pass over the room meets, in iteration order. *)
Definition published_video_tracks (room : Room) : list Track :=
  flat_map
    (fun p => flat_map
       (fun pub => match track (snd pub) with
                   | Some t => if is_remote_video_track t then [t] else []
                   | None => []
                   end)
       (track_publications (snd p)))
    (remote_participants room).


(** The first subscribed video track among the publications of one
    participant. *)
Fixpoint first_video_track (pubs : list (string * TrackPublication)) : option Track :=
  match pubs with
  | [] => None
  | (_, track_publication) :: rest =>
      match track track_publication with
      | Some t => if is_remote_video_track t then Some t else first_video_track rest
      | None => first_video_track rest
      end
  end.

(** For each participant that has one, its first video track, in the
    order of `room.remote_participants`. *)
Definition participant_video_tracks (room : Room) : list Track :=
  omap (fun p => first_video_track (track_publications (snd p)))
       (remote_participants room).

(* --------------------------------------------------------------------- *)
(* The running assistant: `entrypoint` after the handlers are registered  *)
(* --------------------------------------------------------------------- *)

(** Where the `entrypoint` coroutine stands. *)
Inductive MediaPC :=
| Greeting                         (* before `assistant.say("Ciao! ...")` *)
| AtWhile                          (* at the test of the `while` *)
| AwaitingTrack (fut : Future)     (* at `await video_track` *)
| Streaming (video_track : Track)  (* inside the `async for` *)
| LoopExited
| LoopRaised (e : Exc).

Record System := {
  sys_room : Room;
  sys_pc : MediaPC;
  sys_state : State;
  sys_tasks : list Task              (* created, not yet run *)
}.

(** What the event loop can do next. *)
Inductive Action :=
| Advance                            (* `entrypoint` runs to its next await *)
| FrameArrives (frame : VideoFrame)  (* the video stream yields an event *)
| StreamEnds                         (* the video stream is exhausted *)
| RoomChanges (room' : Room)         (* participants, tracks, connection *)
| ChatMessageReceived (msg : RtcChatMessage)
| FunctionCallsFinished (called_functions : list CalledFunction)
| TaskRuns.                          (* the oldest created task runs *)

Definition greeting : string := "Ciao! Come posso aiutarti?".

Definition set_latest_image (frame : VideoFrame) (st : State) : State :=
  {| messages := messages st; latest_image := Some frame; calls := calls st |}.

Definition spawn (r : Result (list Task)) (s : System) : System :=
  match r with
  | Ok ts => {| sys_room := sys_room s; sys_pc := sys_pc s;
                sys_state := sys_state s; sys_tasks := sys_tasks s ++ ts |}
  | Raise _ => s
  end.

Section Entrypoint.

Variable gpt_chat : list ExtCall -> list ChatMessage -> Result LLMStream.
Variable assistant_say : list ExtCall -> SaySource -> bool -> Result unit.

(** `entrypoint` from its current point to its next suspension. *)
Definition advance (s : System) : System :=
  match sys_pc s with
  | Greeting =>
      let '(st', r) := call_assistant_say assistant_say (SayText greeting) true (sys_state s) in
      {| sys_room := sys_room s;
         sys_pc := match r with Ok _ => AtWhile | Raise e => LoopRaised e end;
         sys_state := st'; sys_tasks := sys_tasks s |}
  | AtWhile =>
      {| sys_room := sys_room s;
         sys_pc :=
           match connection_state (sys_room s) with
           | CONN_CONNECTED =>
               match get_video_track_scan (sys_room s) with
               | Ok fut => AwaitingTrack fut
               | Raise e => LoopRaised e
               end
           | _ => LoopExited
           end;
         sys_state := sys_state s; sys_tasks := sys_tasks s |}
  | AwaitingTrack fut =>
      match await_future fut with
      | Returned t =>
          {| sys_room := sys_room s; sys_pc := Streaming t;
             sys_state := sys_state s; sys_tasks := sys_tasks s |}
      | Raised e =>
          {| sys_room := sys_room s; sys_pc := LoopRaised e;
             sys_state := sys_state s; sys_tasks := sys_tasks s |}
      | Suspended => s
      end
  | Streaming _ | LoopExited | LoopRaised _ => s
  end.

Definition sys_step (a : Action) (s : System) : System :=
  match a with
  | Advance => advance s
  | FrameArrives frame =>
      match sys_pc s with
      | Streaming _ =>
          {| sys_room := sys_room s; sys_pc := sys_pc s;
             sys_state := set_latest_image frame (sys_state s);
             sys_tasks := sys_tasks s |}
      | _ => s
      end
  | StreamEnds =>
      match sys_pc s with
      | Streaming _ =>
          {| sys_room := sys_room s; sys_pc := AtWhile;
             sys_state := sys_state s; sys_tasks := sys_tasks s |}
      | _ => s
      end
  | RoomChanges room' =>
      {| sys_room := room'; sys_pc := sys_pc s;
         sys_state := sys_state s; sys_tasks := sys_tasks s |}
  | ChatMessageReceived msg => spawn (on_message_received msg) s
  | FunctionCallsFinished called_functions =>
      spawn (on_function_calls_finished called_functions) s
  | TaskRuns =>
      match sys_tasks s with
      | [] => s
      | t :: rest =>
          {| sys_room := sys_room s; sys_pc := sys_pc s;
             sys_state := run_detached gpt_chat assistant_say t (sys_state s);
             sys_tasks := rest |}
      end
  end.

(** A run of the event loop, oldest action first. *)
Fixpoint sys_run (acts : list Action) (s : System) : System :=
  match acts with
  | [] => s
  | a :: rest => sys_run rest (sys_step a s)
  end.

(** The system when `entrypoint` has registered its handlers. *)
Definition sys_init (room : Room) : System :=
  {| sys_room := room; sys_pc := Greeting;
     sys_state := initial_state; sys_tasks := [] |}.

End Entrypoint.

(* --------------------------------------------------------------------- *)
(* The `__main__` block                                                   *)
(* --------------------------------------------------------------------- *)

(** `api.VideoGrants`, with the two fields the script sets. *)
Record VideoGrants := { room_join : bool; room : string }.

(** `api.AccessToken` as a builder. *)
Record AccessToken := {
  api_key : string;
  api_secret : string;
  identity : string;
  name : string;
  grants : VideoGrants
}.

Definition new_AccessToken (key secret : string) : AccessToken :=
  {| api_key := key; api_secret := secret; identity := ""; name := "";
     grants := {| room_join := false; room := "" |} |}.

Definition with_identity (i : string) (t : AccessToken) : AccessToken :=
  {| api_key := api_key t; api_secret := api_secret t; identity := i;
     name := name t; grants := grants t |}.

Definition with_name (n : string) (t : AccessToken) : AccessToken :=
  {| api_key := api_key t; api_secret := api_secret t; identity := identity t;
     name := n; grants := grants t |}.

Definition with_grants (g : VideoGrants) (t : AccessToken) : AccessToken :=
  {| api_key := api_key t; api_secret := api_secret t; identity := identity t;
     name := name t; grants := g |}.

(** The builder `__main__` hands to `to_jwt`. *)
Definition token_builder (key secret : string) : AccessToken :=
  with_grants {| room_join := true; room := "my-room" |}
    (with_name "Python Bot"
       (with_identity "python-bot" (new_AccessToken key secret))).

(** A value passed by keyword to `WorkerOptions(...)`. *)
Inductive KwValue :=
| KwEntrypoint                       (* the coroutine function `entrypoint` *)
| KwStr (s : string).

(** The keyword arguments of `WorkerOptions(entrypoint_fnc=entrypoint,
    token=token)`. *)
Definition worker_kwargs (token : string) : list (string * KwValue) :=
  [("entrypoint_fnc", KwEntrypoint); ("token", KwStr token)].

(** What `__main__` does besides reading the environment; `W` is the
    class `WorkerOptions` of the framework. *)
Inductive MainEffect (W : Type) :=
| ToJwt (t : AccessToken)            (* a token is generated *)
| RunApp (opts : W).                 (* the worker starts and connects *)
Arguments ToJwt {W} t.
Arguments RunApp {W} opts.

Definition credentials_error : string :=
  "LIVEKIT_API_KEY e LIVEKIT_API_SECRET devono essere impostati nelle variabili d'ambiente.".

Section Main.

(** `AccessToken.to_jwt`: encoding and signature of the auth library. *)
Variable to_jwt : AccessToken -> string.

(** The class `WorkerOptions` of the framework and its constructor, which
    is given keyword arguments and may reject them. *)
Variable WorkerOptions : Type.
Variable new_WorkerOptions : list (string * KwValue) -> Result WorkerOptions.

(** `cli.run_app`: runs the worker, which connects to the room. *)
Variable run_app : WorkerOptions -> Result unit.

(** `__main__`, over `os.environ`: its effects in order and how it ends.
    The argument of `cli.run_app` is evaluated first: when the constructor
    raises, `run_app` is not called. *)
Definition main (environ : gmap string string)
    : list (MainEffect WorkerOptions) * Result unit :=
  let api_key := environ !! "LIVEKIT_API_KEY" in
  let api_secret := environ !! "LIVEKIT_API_SECRET" in
  if negb (truthy api_key) || negb (truthy api_secret) then
    ([], Raise (ValueError credentials_error))
  else
    match api_key, api_secret with
    | Some key, Some secret =>
        let builder := token_builder key secret in
        let token := to_jwt builder in
        match new_WorkerOptions (worker_kwargs token) with
        | Ok opts => ([ToJwt builder; RunApp opts], run_app opts)
        | Raise e => ([ToJwt builder], Raise e)
        end
    | _, _ => ([], Raise (ValueError credentials_error))
    end.

End Main.

Arguments main to_jwt {WorkerOptions} new_WorkerOptions run_app environ.

(* --------------------------------------------------------------------- *)
(* The conversation invariant                                             *)
(* --------------------------------------------------------------------- *)

(** How many messages of the conversation have the given role. *)
Definition count_role (r : string) (ms : list ChatMessage) : nat :=
  length (filter (fun m => role m = r) ms).

(** The conversation is the system prompt followed by user turns. *)
Definition prompt_then_users (ms : list ChatMessage) : Prop :=
  exists turns,
    ms = chat_context ++ turns /\ Forall (fun m => role m = "user") turns.

(** The role of the first message, if there is one. *)
Definition first_role (ms : list ChatMessage) : option string :=
  role <$> head ms.

(* --------------------------------------------------------------------- *)
(* The capability, and notions used to state properties of runs           *)
(* --------------------------------------------------------------------- *)

(** `AssistantFunction.image`: prints one line and returns `None`. *)
Definition image_capability (user_msg : string) : list string * option unit :=
  (["Messaggio che ha attivato le capacità visive: " +:+ user_msg], None).

(** The video tracks among the publications of one participant. *)
Definition video_tracks_of (pubs : list (string * TrackPublication)) : list Track :=
  flat_map
    (fun pub => match track (snd pub) with
                | Some t => if is_remote_video_track t then [t] else []
                | None => []
                end)
    pubs.

(** The user turn a task appends when it runs in state `st`. *)
Definition task_turn (st : State) (t : Task) : ChatMessage :=
  match t with
  | AnswerTask text use_image => user_turn text use_image st
  end.

(** `entrypoint` has ended: it left the loop or raised. *)
Definition stopped (pc : MediaPC) : bool :=
  match pc with
  | LoopExited | LoopRaised _ => true
  | Greeting | AtWhile | AwaitingTrack _ | Streaming _ => false
  end.

(* --------------------------------------------------------------------- *)
(* Sample inputs                                                          *)
(* --------------------------------------------------------------------- *)

(** A call of the `image` capability with the given arguments. *)
Definition image_call (id : string) (args : gmap string string) : CalledFunction :=
  {| call_info := {| tool_call_id := id; arguments := args |} |}.

(** A 2x2 frame. *)
Definition sample_frame : VideoFrame :=
  {| frame_width := 2; frame_height := 2; frame_data := [0; 0; 0; 0]%Z |}.

(** A language model that always answers, and one that always fails. *)
Definition chat_ok (_ : list ExtCall) (_ : list ChatMessage) : Result LLMStream :=
  Ok ["Certo"; "."].

Definition chat_fails (_ : list ExtCall) (_ : list ChatMessage) : Result LLMStream :=
  Raise (ExternalError "chat").

(** A speech pipeline that always plays, and one that always fails. *)
Definition say_ok (_ : list ExtCall) (_ : SaySource) (_ : bool) : Result unit :=
  Ok tt.

Definition say_fails (_ : list ExtCall) (_ : SaySource) (_ : bool) : Result unit :=
  Raise (ExternalError "say").

(** A state with a frame in `latest_image`. *)
Definition state_with_frame : State :=
  {| messages := chat_context; latest_image := Some sample_frame; calls := [] |}.

(** Rooms: nobody there; one participant with a microphone and a camera;
    two participants with a camera each. *)
Definition empty_room : Room :=
  {| room_name := "my-room"; connection_state := CONN_CONNECTED;
     remote_participants := [] |}.

Definition camera (sid : string) : string * TrackPublication :=
  (sid, {| track := Some (RemoteVideoTrack sid) |}).

Definition microphone (sid : string) : string * TrackPublication :=
  (sid, {| track := Some (RemoteAudioTrack sid) |}).

Definition one_camera_room : Room :=
  {| room_name := "my-room"; connection_state := CONN_CONNECTED;
     remote_participants :=
       [("alice", {| track_publications := [microphone "TR_mic1"; camera "TR_cam1"] |})] |}.

Definition two_camera_room : Room :=
  {| room_name := "my-room"; connection_state := CONN_CONNECTED;
     remote_participants :=
       [("alice", {| track_publications := [microphone "TR_mic1"; camera "TR_cam1"] |});
        ("bruno", {| track_publications := [camera "TR_cam2"] |})] |}.

(** The assistant starts in an empty room; a participant then publishes a
    camera, and the stream of that camera would have a frame to give. *)
Definition late_publisher_run : list Action :=
  [Advance; Advance; Advance; RoomChanges one_camera_room; Advance;
   FrameArrives sample_frame; Advance].

(** An environment with both credentials, and one without the secret. *)
Definition full_environ : gmap string string :=
  {[ "LIVEKIT_API_KEY" := "APIkey"; "LIVEKIT_API_SECRET" := "secret" ]}.

Definition key_only_environ : gmap string string :=
  {[ "LIVEKIT_API_KEY" := "APIkey" ]}.

Definition empty_secret_environ : gmap string string :=
  {[ "LIVEKIT_API_KEY" := "APIkey"; "LIVEKIT_API_SECRET" := "" ]}.

(** A stand-in for the signature: the token shows its identity and room. *)
Definition sample_to_jwt (t : AccessToken) : string :=
  identity t +:+ "@" +:+ room (grants t).

(** A constructor that has no parameter `token`: given that keyword it
    raises `TypeError`, otherwise it keeps the arguments it was given. *)
Definition options_without_token (kwargs : list (string * KwValue))
    : Result (list (string * KwValue)) :=
  if existsb (fun kw => String.eqb (fst kw) "token") kwargs then
    Raise (TypeError "WorkerOptions.__init__() got an unexpected keyword argument 'token'")
  else Ok kwargs.

(** A constructor that takes any keyword. *)
Definition options_with_any (kwargs : list (string * KwValue))
    : Result (list (string * KwValue)) :=
  Ok kwargs.

(** A worker that runs until it is stopped, then returns. *)
Definition run_app_returns (_ : list (string * KwValue)) : Result unit :=
  Ok tt.

(** One participant with two cameras, the first not yet subscribed. *)
Definition double_camera_room : Room :=
  {| room_name := "my-room"; connection_state := CONN_CONNECTED;
     remote_participants :=
       [("alice", {| track_publications :=
                       [("TR_cam0", {| track := None |}); microphone "TR_mic1";
                        camera "TR_cam1"; camera "TR_cam2"] |})] |}.

(** The same rooms after the connection is lost. *)
Definition disconnected (r : Room) : Room :=
  {| room_name := room_name r; connection_state := CONN_DISCONNECTED;
     remote_participants := remote_participants r |}.

(** A system at the loop test in the given room. *)
Definition at_while (r : Room) : System :=
  {| sys_room := r; sys_pc := AtWhile; sys_state := initial_state; sys_tasks := [] |}.

(** A system consuming the frames of a camera. *)
Definition streaming (r : Room) : System :=
  {| sys_room := r; sys_pc := Streaming (RemoteVideoTrack "TR_cam1");
     sys_state := initial_state; sys_tasks := [] |}.

(** A second frame, 1x1. *)
Definition other_frame : VideoFrame :=
  {| frame_width := 1; frame_height := 1; frame_data := [255]%Z |}.

(** A system with three tasks waiting, the second asking for the image. *)
Definition three_tasks : System :=
  {| sys_room := one_camera_room; sys_pc := Streaming (RemoteVideoTrack "TR_cam1");
     sys_state := state_with_frame;
     sys_tasks := [AnswerTask "uno" false; AnswerTask "due" true; AnswerTask "tre" false] |}.

(* ===================================================================== *)
(* Properties                                                             *)
(* ===================================================================== *)

(* --------------------------------------------------------------------- *)
(* Truth values                                                           *)
(* --------------------------------------------------------------------- *)

Lemma str_truthy_true (s : string) : truthy s = true <-> s <> "".
Proof. destruct s; cbn; split; intros; congruence. Qed.

Lemma str_truthy_false (s : string) : truthy s = false <-> s = "".
Proof. destruct s; cbn; split; intros; congruence. Qed.

Lemma option_str_truthy_false (o : option string) :
  truthy o = false <-> o = None \/ o = Some "".
Proof.
  destruct o as [s|]; cbn.
  - change (option_truthy (Some s)) with (truthy s).
    rewrite str_truthy_false. split.
    + intros ->. by right.
    + intros [?|?]; congruence.
  - split; intros; [by left | reflexivity].
Qed.

Lemma whitespace_only_blank : whitespace_only " " = true.
Proof. reflexivity. Qed.

(* --------------------------------------------------------------------- *)
(* `_answer`                                                              *)
(* --------------------------------------------------------------------- *)

Section AnswerFacts.

Variable gpt_chat : list ExtCall -> list ChatMessage -> Result LLMStream.
Variable assistant_say : list ExtCall -> SaySource -> bool -> Result unit.

Local Abbreviation answer := (_answer gpt_chat assistant_say).

(** `_answer` unfolded: append, then chat on the extended context, then
    say on the stream; the first exception ends it. *)
Lemma answer_unfold (text : string) (use_image : bool) (st : State) :
  let ms := messages st ++ [user_turn text use_image st] in
  let chat_call := CallChat ms in
  answer text use_image st =
    match gpt_chat (calls st) ms with
    | Ok stream =>
        ({| messages := ms; latest_image := latest_image st;
            calls := (calls st ++ [chat_call]) ++ [CallSay (SayStream stream) true] |},
         assistant_say (calls st ++ [chat_call]) (SayStream stream) true)
    | Raise e =>
        ({| messages := ms; latest_image := latest_image st;
            calls := calls st ++ [chat_call] |}, Raise e)
    end.
Proof.
  cbv zeta. unfold _answer, call_gpt_chat, call_assistant_say.
  unfold mbind, M_bind, get_latest_image, append_message, get_calls,
    get_messages, extcall; cbn.
  fold (user_turn text use_image st).
  destruct (gpt_chat _ _); reflexivity.
Qed.

Lemma answer_messages (text : string) (use_image : bool) (st : State) :
  messages (fst (answer text use_image st)) =
    messages st ++ [user_turn text use_image st].
Proof.
  pose proof (answer_unfold text use_image st) as H. cbv zeta in H.
  rewrite H. destruct (gpt_chat _ _); reflexivity.
Qed.

Lemma answer_latest_image (text : string) (use_image : bool) (st : State) :
  latest_image (fst (answer text use_image st)) = latest_image st.
Proof.
  pose proof (answer_unfold text use_image st) as H. cbv zeta in H.
  rewrite H. destruct (gpt_chat _ _); reflexivity.
Qed.

Lemma answer_calls (text : string) (use_image : bool) (st : State) :
  exists rest,
    calls (fst (answer text use_image st)) =
      calls st ++ CallChat (messages st ++ [user_turn text use_image st]) :: rest /\
    Forall (fun c => exists source b, c = CallSay source b) rest.
Proof.
  pose proof (answer_unfold text use_image st) as H. cbv zeta in H.
  rewrite H. destruct (gpt_chat _ _) as [stream|e]; cbn.
  - exists [CallSay (SayStream stream) true]. split.
    + by rewrite <- app_assoc.
    + constructor; eauto.
  - exists []. split; [reflexivity | constructor].
Qed.

(** An exception out of `_answer` is one raised by the framework. *)
Lemma answer_raises (text : string) (use_image : bool) (st : State) (e : Exc) :
  snd (answer text use_image st) = Raise e ->
  let ms := messages st ++ [user_turn text use_image st] in
  gpt_chat (calls st) ms = Raise e \/
  exists stream,
    gpt_chat (calls st) ms = Ok stream /\
    assistant_say (calls st ++ [CallChat ms]) (SayStream stream) true = Raise e.
Proof.
  pose proof (answer_unfold text use_image st) as H. cbv zeta in H.
  rewrite H. cbv zeta. destruct (gpt_chat _ _) as [stream|e'] eqn:E; cbn.
  - intros Hs. right. eauto.
  - intros [= ->]. by left.
Qed.

End AnswerFacts.

Lemma answer_content_no_frame (text : string) (use_image : bool) :
  answer_content text use_image None = [CText text].
Proof. unfold answer_content. by destruct use_image. Qed.

Lemma answer_content_frame (text : string) (use_image : bool) (frame : VideoFrame) :
  answer_content text use_image (Some frame) =
    CText text :: (if use_image then [CImage {| image := frame |}] else []).
Proof. unfold answer_content. by destruct use_image. Qed.

(* --------------------------------------------------------------------- *)
(* Event handlers                                                         *)
(* --------------------------------------------------------------------- *)

Lemma on_message_received_text (T : string) :
  on_message_received {| message := Some T |} =
    Ok (if truthy T then [AnswerTask T false] else []).
Proof.
  unfold on_message_received; cbn.
  change (option_truthy (Some T)) with (truthy T).
  by destruct (truthy T).
Qed.

(** C1, as stated, fails: a whitespace-only text is a non-empty `str`, so
    the handler creates a task for it. *)
Lemma C1_whitespace_text_is_answered :
  ~ (forall T : string,
       whitespace_only T = true ->
       on_message_received {| message := Some T |} = Ok []).
Proof.
  intros H. specialize (H " " whitespace_only_blank).
  rewrite on_message_received_text in H. discriminate H.
Qed.

(** C1 (amended): on a chat message with text T the handler creates exactly
    one task `_answer(T, use_image=False)` if and only if T is not the empty
    string, and no task at all if and only if T is the empty string (or the
    message carries no text); it never raises.  Whitespace-only texts are
    not empty and are answered. *)
Theorem C1_chat_message_answered_iff_nonempty (T : string) :
  (on_message_received {| message := Some T |} = Ok [AnswerTask T false] <-> T <> "") /\
  (on_message_received {| message := Some T |} = Ok [] <-> T = "") /\
  on_message_received {| message := None |} = Ok [].
Proof.
  rewrite on_message_received_text.
  destruct T as [|c T]; cbn; repeat split; intros; congruence.
Qed.

Lemma on_function_calls_finished_cons (first : CalledFunction)
    (rest : list CalledFunction) :
  on_function_calls_finished (first :: rest) =
    match arguments (call_info first) !! "user_msg" with
    | Some text => Ok (if truthy text then [AnswerTask text true] else [])
    | None => Ok []
    end.
Proof.
  unfold on_function_calls_finished; cbn.
  destruct (arguments (call_info first) !! "user_msg") as [text|]; cbn; [|done].
  change (option_truthy (Some text)) with (truthy text).
  by destruct (truthy text).
Qed.

(** C2: an empty batch creates no task; a batch whose first call has a
    non-empty `user_msg` creates exactly the task
    `_answer(user_msg, use_image=True)`, whatever the other calls are; a first
    call without `user_msg`, or with an empty one, creates no task; and the
    handler never raises. *)
Theorem C2_function_calls_first_call_only :
  on_function_calls_finished [] = Ok [] /\
  (forall (first : CalledFunction) (rest : list CalledFunction) (user_msg : string),
     arguments (call_info first) !! "user_msg" = Some user_msg ->
     user_msg <> "" ->
     on_function_calls_finished (first :: rest) = Ok [AnswerTask user_msg true]) /\
  (forall (first : CalledFunction) (rest : list CalledFunction),
     on_function_calls_finished (first :: rest) = on_function_calls_finished [first]) /\
  (forall (first : CalledFunction) (rest : list CalledFunction),
     arguments (call_info first) !! "user_msg" = None \/
     arguments (call_info first) !! "user_msg" = Some "" ->
     on_function_calls_finished (first :: rest) = Ok []) /\
  (forall called_functions : list CalledFunction,
     exists tasks, on_function_calls_finished called_functions = Ok tasks).
Proof.
  split; [reflexivity|]. split; [|split; [|split]].
  - intros first rest user_msg Hget Hne.
    rewrite on_function_calls_finished_cons, Hget.
    apply str_truthy_true in Hne. by rewrite Hne.
  - intros first rest. by rewrite !on_function_calls_finished_cons.
  - intros first rest [H|H]; by rewrite on_function_calls_finished_cons, H.
  - intros [|first rest]; [by exists []|].
    rewrite on_function_calls_finished_cons.
    destruct (_ !! _); eauto.
Qed.

Lemma C2_function_calls_first_call_only_witness :
  on_function_calls_finished
    [image_call "a" {[ "user_msg" := "describe what you see" ]};
     image_call "b" {[ "user_msg" := "ignored" ]}]
    = Ok [AnswerTask "describe what you see" true] /\
  on_function_calls_finished [image_call "a" ∅; image_call "b" {[ "user_msg" := "x" ]}]
    = Ok [] /\
  on_function_calls_finished [image_call "a" {[ "user_msg" := "" ]}] = Ok [].
Proof.
  destruct C2_function_calls_first_call_only as (_ & Hfirst & _ & Hnone & _).
  split; [|split].
  - apply Hfirst; [reflexivity | discriminate].
  - apply Hnone. left. reflexivity.
  - apply Hnone. right. reflexivity.
Defined.

(* --------------------------------------------------------------------- *)
(* The user turn                                                          *)
(* --------------------------------------------------------------------- *)

(** C3: every run of `_answer(text, use_image)` appends exactly one message,
    of role "user", to the conversation; its content is `[text]` followed by
    one image item exactly when `use_image` holds and `latest_image` holds a
    frame; and the language model is called after the append, on the
    conversation that already ends with this message, and only once. *)
Theorem C3_answer_appends_one_user_turn
    (gpt_chat : list ExtCall -> list ChatMessage -> Result LLMStream)
    (assistant_say : list ExtCall -> SaySource -> bool -> Result unit)
    (text : string) (use_image : bool) (st : State) :
  let st' := fst (_answer gpt_chat assistant_say text use_image st) in
  let image_items :=
    match latest_image st with
    | Some frame => if use_image then [CImage {| image := frame |}] else []
    | None => []
    end in
  let turn := {| role := "user"; content := ContentList (CText text :: image_items) |} in
  messages st' = messages st ++ [turn] /\
  exists later,
    calls st' = calls st ++ CallChat (messages st ++ [turn]) :: later /\
    Forall (fun c => exists source b, c = CallSay source b) later.
Proof.
  cbv zeta.
  assert (user_turn text use_image st =
    {| role := "user";
       content := ContentList (CText text ::
         match latest_image st with
         | Some frame => if use_image then [CImage {| image := frame |}] else []
         | None => []
         end) |}) as <-.
  { unfold user_turn. destruct (latest_image st) as [frame|].
    - by rewrite answer_content_frame.
    - by rewrite answer_content_no_frame. }
  split; [apply answer_messages | apply answer_calls].
Qed.

(** A finished `image` call while a frame is held: one user turn with the
    text and the frame, one chat call on the whole conversation, then the
    speech call on the returned stream. *)
Example answer_with_frame :
  _answer chat_ok say_ok "describe what you see" true state_with_frame =
    (let ms := chat_context ++
         [{| role := "user";
             content := ContentList [CText "describe what you see";
                                     CImage {| image := sample_frame |}] |}] in
     {| messages := ms; latest_image := Some sample_frame;
        calls := [CallChat ms; CallSay (SayStream ["Certo"; "."]) true] |},
     Ok tt).
Proof. reflexivity. Qed.

(** A chat message: the text alone, even though a frame is held. *)
Example answer_chat_text :
  messages (fst (_answer chat_ok say_ok "What's the weather?" false state_with_frame)) =
    chat_context ++
      [{| role := "user"; content := ContentList [CText "What's the weather?"] |}].
Proof. reflexivity. Qed.

(** C4: `_answer(text, use_image=True)` with no frame in `latest_image`
    appends the text-only user turn, and raises only if the language model
    or the speech call raises. *)
Theorem C4_answer_without_frame_is_text_only
    (gpt_chat : list ExtCall -> list ChatMessage -> Result LLMStream)
    (assistant_say : list ExtCall -> SaySource -> bool -> Result unit)
    (text : string) (st : State) :
  latest_image st = None ->
  let out := _answer gpt_chat assistant_say text true st in
  let ms := messages st ++ [{| role := "user"; content := ContentList [CText text] |}] in
  messages (fst out) = ms /\
  snd out =
    match gpt_chat (calls st) ms with
    | Ok stream => assistant_say (calls st ++ [CallChat ms]) (SayStream stream) true
    | Raise e => Raise e
    end.
Proof.
  intros Hnone. cbv zeta.
  pose proof (answer_unfold gpt_chat assistant_say text true st) as H.
  cbv zeta in H. unfold user_turn in H.
  rewrite Hnone, answer_content_no_frame in H. rewrite H.
  destruct (gpt_chat _ _); split; reflexivity.
Qed.

Lemma C4_answer_without_frame_is_text_only_witness :
  messages (fst (_answer chat_ok say_ok "che cosa vedi" true initial_state)) =
    chat_context ++ [{| role := "user"; content := ContentList [CText "che cosa vedi"] |}] /\
  snd (_answer chat_ok say_ok "che cosa vedi" true initial_state) = Ok tt.
Proof.
  exact (C4_answer_without_frame_is_text_only chat_ok say_ok "che cosa vedi"
           initial_state eq_refl).
Defined.

(** C10: when `_answer` ends with an exception, raised by the language
    model call or by the speech call, the user turn it appended is still in
    the conversation: the failed run has changed the conversation. *)
Theorem C10_failed_answer_keeps_user_turn
    (gpt_chat : list ExtCall -> list ChatMessage -> Result LLMStream)
    (assistant_say : list ExtCall -> SaySource -> bool -> Result unit)
    (text : string) (use_image : bool) (st : State) (e : Exc) :
  snd (_answer gpt_chat assistant_say text use_image st) = Raise e ->
  let st' := fst (_answer gpt_chat assistant_say text use_image st) in
  messages st' = messages st ++ [user_turn text use_image st] /\
  messages st' <> messages st /\
  messages (run_detached gpt_chat assistant_say (AnswerTask text use_image) st) =
    messages st' /\
  (gpt_chat (calls st) (messages st') = Raise e \/
   exists stream,
     gpt_chat (calls st) (messages st') = Ok stream /\
     assistant_say (calls st ++ [CallChat (messages st')]) (SayStream stream) true
       = Raise e).
Proof.
  intros Hraise. cbv zeta. rewrite answer_messages.
  split; [reflexivity|]. split; [|split].
  - intros H. apply (f_equal length) in H. rewrite length_app in H.
    cbn in H. lia.
  - unfold run_detached, run_task. by rewrite answer_messages.
  - by apply answer_raises.
Qed.

Lemma C10_failed_answer_keeps_user_turn_witness :
  messages (fst (_answer chat_fails say_ok "ciao" false initial_state)) =
    chat_context ++ [{| role := "user"; content := ContentList [CText "ciao"] |}] /\
  messages (fst (_answer chat_ok say_fails "ciao" false initial_state)) =
    chat_context ++ [{| role := "user"; content := ContentList [CText "ciao"] |}].
Proof.
  split.
  - exact (proj1 (C10_failed_answer_keeps_user_turn chat_fails say_ok "ciao" false
                    initial_state (ExternalError "chat") eq_refl)).
  - exact (proj1 (C10_failed_answer_keeps_user_turn chat_ok say_fails "ciao" false
                    initial_state (ExternalError "say") eq_refl)).
Defined.

(* --------------------------------------------------------------------- *)
(* The conversation over a run of the assistant                           *)
(* --------------------------------------------------------------------- *)

Section ConversationFacts.

Variable gpt_chat : list ExtCall -> list ChatMessage -> Result LLMStream.
Variable assistant_say : list ExtCall -> SaySource -> bool -> Result unit.

Local Abbreviation step := (sys_step gpt_chat assistant_say).
Local Abbreviation run := (sys_run gpt_chat assistant_say).

Lemma spawn_state (r : Result (list Task)) (s : System) :
  sys_state (spawn r s) = sys_state s.
Proof. by destruct r. Qed.

Lemma advance_messages (s : System) :
  messages (sys_state (advance assistant_say s)) = messages (sys_state s).
Proof.
  unfold advance. destruct (sys_pc s) as [| |fut| | |]; try reflexivity.
  by destruct fut.
Qed.

(** One action leaves the conversation as it is or appends one user turn. *)
Lemma sys_step_messages (a : Action) (s : System) :
  messages (sys_state (step a s)) = messages (sys_state s) \/
  exists text use_image,
    messages (sys_state (step a s)) =
      messages (sys_state s) ++ [user_turn text use_image (sys_state s)].
Proof.
  destruct a; cbn.
  - left. apply advance_messages.
  - left. by destruct (sys_pc s).
  - left. by destruct (sys_pc s).
  - by left.
  - left. by rewrite spawn_state.
  - left. by rewrite spawn_state.
  - destruct (sys_tasks s) as [|[text use_image] rest]; [by left|].
    right. exists text, use_image. cbn. unfold run_detached, run_task.
    apply answer_messages.
Qed.

Lemma sys_step_prefix (a : Action) (s : System) :
  messages (sys_state s) `prefix_of` messages (sys_state (step a s)).
Proof.
  destruct (sys_step_messages a s) as [->|(text & use_image & ->)].
  - reflexivity.
  - by apply prefix_app_r.
Qed.

Lemma sys_run_prefix (acts : list Action) (s : System) :
  messages (sys_state s) `prefix_of` messages (sys_state (run acts s)).
Proof.
  revert s. induction acts as [|a acts IH]; intros s; cbn; [reflexivity|].
  etrans; [apply sys_step_prefix | apply IH].
Qed.

Lemma prompt_then_users_step (a : Action) (s : System) :
  prompt_then_users (messages (sys_state s)) ->
  prompt_then_users (messages (sys_state (step a s))).
Proof.
  intros (turns & Hms & Husers).
  destruct (sys_step_messages a s) as [->|(text & use_image & ->)].
  - by exists turns.
  - exists (turns ++ [user_turn text use_image (sys_state s)]). split.
    + by rewrite Hms, app_assoc.
    + apply Forall_app. split; [done|]. by constructor.
Qed.

Lemma prompt_then_users_run (acts : list Action) (s : System) :
  prompt_then_users (messages (sys_state s)) ->
  prompt_then_users (messages (sys_state (run acts s))).
Proof.
  revert s. induction acts as [|a acts IH]; intros s Hs; cbn; [done|].
  apply IH. by apply prompt_then_users_step.
Qed.

Lemma count_role_users (turns : list ChatMessage) :
  Forall (fun m => role m = "user") turns -> count_role "system" turns = 0.
Proof.
  unfold count_role. induction 1 as [|m turns Hm _ IH]; [reflexivity|].
  rewrite filter_cons_False; [exact IH|]. rewrite Hm. discriminate.
Qed.

Lemma prompt_then_users_system_once (ms : list ChatMessage) :
  prompt_then_users ms ->
  first_role ms = Some "system" /\ count_role "system" ms = 1.
Proof.
  intros (turns & -> & Husers). split; [reflexivity|].
  unfold count_role. rewrite filter_app, length_app.
  fold (count_role "system" turns). rewrite (count_role_users turns Husers).
  reflexivity.
Qed.

End ConversationFacts.

(** C9: in the initial state and after any run of the assistant (chat
    messages, finished function calls, frames, room changes and `_answer`
    tasks in any order) the conversation still starts with the initial
    messages and continues with user turns only, so that its first message
    has role "system" and no other message has; and every further action,
    in particular every `_answer`, leaves the messages already there in
    place and in order, adding at the end only. *)
Theorem C9_conversation_is_append_only_with_system_first
    (gpt_chat : list ExtCall -> list ChatMessage -> Result LLMStream)
    (assistant_say : list ExtCall -> SaySource -> bool -> Result unit)
    (room : Room) (acts : list Action) :
  let s := sys_run gpt_chat assistant_say acts (sys_init room) in
  let ms := messages (sys_state s) in
  chat_context `prefix_of` ms /\
  first_role ms = Some "system" /\
  count_role "system" ms = 1 /\
  (forall a : Action,
     ms `prefix_of` messages (sys_state (sys_step gpt_chat assistant_say a s))) /\
  (forall (text : string) (use_image : bool),
     messages (fst (_answer gpt_chat assistant_say text use_image (sys_state s))) =
       ms ++ [user_turn text use_image (sys_state s)] /\
     role (user_turn text use_image (sys_state s)) = "user").
Proof.
  cbv zeta.
  assert (prompt_then_users
            (messages (sys_state (sys_run gpt_chat assistant_say acts (sys_init room)))))
    as Hinv.
  { apply prompt_then_users_run. exists []. split; [reflexivity | constructor]. }
  destruct (prompt_then_users_system_once _ Hinv) as [Hfirst Hcount].
  split; [|split; [done|split; [done|split]]].
  - destruct Hinv as (turns & -> & _). by apply prefix_app_r.
  - intros a. apply sys_step_prefix.
  - intros text use_image. split; [apply answer_messages | reflexivity].
Qed.

(* --------------------------------------------------------------------- *)
(* `get_video_track`                                                      *)
(* --------------------------------------------------------------------- *)

Lemma scan_publications_first (pubs : list (string * TrackPublication)) (fut : Future) :
  scan_publications pubs fut =
    match first_video_track pubs with
    | Some t => set_result fut t
    | None => Ok fut
    end.
Proof.
  induction pubs as [|[sid pub] rest IH]; cbn; [reflexivity|].
  destruct (track pub) as [t|]; [|exact IH].
  destruct (is_remote_video_track t); [reflexivity | exact IH].
Qed.

(** Once the future is done, any later participant with a video track
    makes `set_result` raise. *)
Lemma scan_participants_done (ps : list (string * RemoteParticipant)) (t : Track) :
  scan_participants ps (Some t) =
    match omap (fun p => first_video_track (track_publications (snd p))) ps with
    | [] => Ok (Some t)
    | _ :: _ => Raise InvalidStateError
    end.
Proof.
  induction ps as [|[id p] rest IH]; cbn; [reflexivity|].
  rewrite scan_publications_first.
  destruct (first_video_track (track_publications p)); cbn; [reflexivity|].
  exact IH.
Qed.

Lemma scan_participants_pending (ps : list (string * RemoteParticipant)) :
  scan_participants ps None =
    match omap (fun p => first_video_track (track_publications (snd p))) ps with
    | [] => Ok None
    | [t] => Ok (Some t)
    | _ :: _ :: _ => Raise InvalidStateError
    end.
Proof.
  induction ps as [|[id p] rest IH]; cbn; [reflexivity|].
  rewrite scan_publications_first.
  destruct (first_video_track (track_publications p)) as [t|]; cbn; [|exact IH].
  rewrite scan_participants_done. by destruct (omap _ rest).
Qed.

(** What `get_video_track` does, by the number of participants that have
    a video track when it is called. *)
Lemma get_video_track_cases (room : Room) :
  get_video_track room =
    match participant_video_tracks room with
    | [] => Suspended
    | [t] => Returned t
    | _ :: _ :: _ => Raised InvalidStateError
    end.
Proof.
  unfold get_video_track, get_video_track_scan, participant_video_tracks.
  rewrite scan_participants_pending.
  destruct (omap _ _) as [|t [|t' l]]; reflexivity.
Qed.

(** C6, at a room where two participants publish a camera: the pass does
    not stop at the first video track, `set_result` is called a second
    time and `get_video_track` raises `InvalidStateError` instead of
    returning the first track. *)
Theorem C6_two_cameras_raise_invalid_state :
  published_video_tracks two_camera_room =
    [RemoteVideoTrack "TR_cam1"; RemoteVideoTrack "TR_cam2"] /\
  get_video_track two_camera_room = Raised InvalidStateError /\
  get_video_track one_camera_room = Returned (RemoteVideoTrack "TR_cam1").
Proof. repeat split. Qed.

(* --------------------------------------------------------------------- *)
(* The media loop                                                         *)
(* --------------------------------------------------------------------- *)

Section MediaLoopFacts.

Variable gpt_chat : list ExtCall -> list ChatMessage -> Result LLMStream.
Variable assistant_say : list ExtCall -> SaySource -> bool -> Result unit.

Local Abbreviation step := (sys_step gpt_chat assistant_say).
Local Abbreviation run := (sys_run gpt_chat assistant_say).

Lemma spawn_pc (r : Result (list Task)) (s : System) :
  sys_pc (spawn r s) = sys_pc s.
Proof. by destruct r. Qed.

(** Suspended on a pending future, `entrypoint` stays there whatever
    happens: nothing else holds the future. *)
Lemma awaiting_pending_step (a : Action) (s : System) :
  sys_pc s = AwaitingTrack None ->
  sys_pc (step a s) = AwaitingTrack None /\
  latest_image (sys_state (step a s)) = latest_image (sys_state s).
Proof.
  intros Hpc. destruct a; cbn.
  - unfold advance. by rewrite Hpc.
  - by rewrite Hpc.
  - by rewrite Hpc.
  - done.
  - by rewrite spawn_pc, spawn_state.
  - by rewrite spawn_pc, spawn_state.
  - destruct (sys_tasks s) as [|[text use_image] rest]; [done|]. cbn.
    split; [done|]. unfold run_detached, run_task. apply answer_latest_image.
Qed.

Lemma awaiting_pending_forever (acts : list Action) (s : System) :
  sys_pc s = AwaitingTrack None ->
  sys_pc (run acts s) = AwaitingTrack None /\
  latest_image (sys_state (run acts s)) = latest_image (sys_state s).
Proof.
  revert s. induction acts as [|a acts IH]; intros s Hpc; cbn; [done|].
  destruct (awaiting_pending_step a s Hpc) as [Hpc' Himg].
  destruct (IH _ Hpc') as [Hpc'' Himg']. split; [done|]. by rewrite Himg'.
Qed.

(** A loop test in a connected room where no participant has a video
    track leaves `entrypoint` suspended on a pending future. *)
Lemma while_without_video_suspends (s : System) :
  sys_pc s = AtWhile ->
  connection_state (sys_room s) = CONN_CONNECTED ->
  participant_video_tracks (sys_room s) = [] ->
  sys_pc (step Advance s) = AwaitingTrack None.
Proof.
  intros Hpc Hconn Hnone. cbn. unfold advance. rewrite Hpc, Hconn. cbn.
  unfold get_video_track_scan. rewrite scan_participants_pending.
  unfold participant_video_tracks in Hnone. by rewrite Hnone.
Qed.

End MediaLoopFacts.

(** C5, at a room that is empty when the loop first resolves a track: the
    future of `get_video_track` is still pending at its `await`, and stays
    so after a participant publishes a camera; the loop never reaches the
    frames of that camera and `latest_image` stays `None`, although the
    room is connected and has a video track. *)
Theorem C5_late_publisher_is_never_resolved :
  let s := sys_run chat_ok say_ok late_publisher_run (sys_init empty_room) in
  connection_state (sys_room s) = CONN_CONNECTED /\
  published_video_tracks (sys_room s) = [RemoteVideoTrack "TR_cam1"] /\
  get_video_track empty_room = Suspended /\
  sys_pc s = AwaitingTrack None /\
  latest_image (sys_state s) = None /\
  (forall more : list Action,
     sys_pc (sys_run chat_ok say_ok more s) = AwaitingTrack None /\
     latest_image (sys_state (sys_run chat_ok say_ok more s)) = None).
Proof.
  cbv zeta. repeat (split; [reflexivity|]).
  intros more.
  pose proof (awaiting_pending_forever chat_ok say_ok more
    (sys_run chat_ok say_ok late_publisher_run (sys_init empty_room)) eq_refl) as [H1 H2].
  split; [exact H1 | by rewrite H2].
Qed.

(* --------------------------------------------------------------------- *)
(* `__main__`: credentials and access token                               *)
(* --------------------------------------------------------------------- *)

Section MainFacts.

Variable to_jwt : AccessToken -> string.
Variable WorkerOptions : Type.
Variable new_WorkerOptions : list (string * KwValue) -> Result WorkerOptions.
Variable run_app : WorkerOptions -> Result unit.

Local Abbreviation main' := (main to_jwt new_WorkerOptions run_app).

(** `__main__` by the two variables: it raises `ValueError` at once, or
    generates the token and goes on to the framework. *)
Lemma main_cases (environ : gmap string string) :
  main' environ =
    match environ !! "LIVEKIT_API_KEY", environ !! "LIVEKIT_API_SECRET" with
    | Some (String a key), Some (String b secret) =>
        let builder := token_builder (String a key) (String b secret) in
        match new_WorkerOptions (worker_kwargs (to_jwt builder)) with
        | Ok opts => ([ToJwt builder; RunApp opts], run_app opts)
        | Raise e => ([ToJwt builder], Raise e)
        end
    | _, _ => ([], Raise (ValueError credentials_error))
    end.
Proof.
  unfold main.
  destruct (environ !! "LIVEKIT_API_KEY") as [[|a key]|];
    destruct (environ !! "LIVEKIT_API_SECRET") as [[|b secret]|]; reflexivity.
Qed.

Lemma main_token_builder (environ : gmap string string) (t : AccessToken) :
  ToJwt t ∈ fst (main' environ) ->
  exists key secret,
    environ !! "LIVEKIT_API_KEY" = Some key /\
    environ !! "LIVEKIT_API_SECRET" = Some secret /\
    t = token_builder key secret /\
    head (fst (main' environ)) = Some (ToJwt t).
Proof.
  rewrite main_cases.
  destruct (environ !! "LIVEKIT_API_KEY") as [[|a key]|];
    destruct (environ !! "LIVEKIT_API_SECRET") as [[|b secret]|]; cbn;
    try (intros H; by apply elem_of_nil in H).
  destruct (new_WorkerOptions _) as [opts|e]; cbn; intros H.
  - apply elem_of_cons in H as [[= ->]|H]; [eauto 10|].
    apply elem_of_cons in H as [[=]|H]. by apply elem_of_nil in H.
  - apply elem_of_cons in H as [[= ->]|H]; [eauto 10|].
    by apply elem_of_nil in H.
Qed.

End MainFacts.

(** C7, as stated, fails: the identity put in the token is "python-bot",
    not "bot". *)
Lemma C7_token_identity_is_not_bot :
  ~ (forall (to_jwt : AccessToken -> string) (environ : gmap string string)
            (t : AccessToken),
       ToJwt t ∈ fst (main to_jwt options_without_token run_app_returns environ) ->
       identity t = "bot").
Proof.
  intros H.
  specialize (H sample_to_jwt full_environ (token_builder "APIkey" "secret")).
  discriminate H. vm_compute. apply list_elem_of_here.
Qed.

(** C7 (amended): whenever `__main__` generates a token, the token is the
    encoding of a builder with identity "python-bot", display name
    "Python Bot" and the grant `room_join=True` for the room "my-room",
    made from the two credentials of the environment; generating it is the
    first thing `__main__` does, whatever the framework does with it
    afterwards. *)
Theorem C7_token_shape
    (to_jwt : AccessToken -> string) (WorkerOptions : Type)
    (new_WorkerOptions : list (string * KwValue) -> Result WorkerOptions)
    (run_app : WorkerOptions -> Result unit)
    (environ : gmap string string) (t : AccessToken) :
  ToJwt t ∈ fst (main to_jwt new_WorkerOptions run_app environ) ->
  identity t = "python-bot" /\
  name t = "Python Bot" /\
  room_join (grants t) = true /\
  room (grants t) = "my-room" /\
  environ !! "LIVEKIT_API_KEY" = Some (api_key t) /\
  environ !! "LIVEKIT_API_SECRET" = Some (api_secret t) /\
  head (fst (main to_jwt new_WorkerOptions run_app environ)) = Some (ToJwt t).
Proof.
  intros H.
  destruct (main_token_builder to_jwt WorkerOptions new_WorkerOptions run_app environ t H)
    as (key & secret & Hkey & Hsecret & -> & Hfirst).
  by repeat split.
Qed.

Lemma C7_token_shape_witness :
  identity (token_builder "APIkey" "secret") = "python-bot" /\
  name (token_builder "APIkey" "secret") = "Python Bot" /\
  room_join (grants (token_builder "APIkey" "secret")) = true /\
  room (grants (token_builder "APIkey" "secret")) = "my-room" /\
  full_environ !! "LIVEKIT_API_KEY" = Some (api_key (token_builder "APIkey" "secret")) /\
  full_environ !! "LIVEKIT_API_SECRET" = Some (api_secret (token_builder "APIkey" "secret")) /\
  head (fst (main sample_to_jwt options_without_token run_app_returns full_environ)) =
    Some (ToJwt (token_builder "APIkey" "secret")).
Proof.
  apply (C7_token_shape sample_to_jwt _ options_without_token run_app_returns
           full_environ (token_builder "APIkey" "secret")).
  vm_compute. apply list_elem_of_here.
Defined.

(** C8: if `LIVEKIT_API_KEY` or `LIVEKIT_API_SECRET` is unset or empty,
    `__main__` raises `ValueError` having generated no token and started no
    worker; if both are set and not empty that error is not raised: the
    token is generated, and `__main__` ends as the constructor of
    `WorkerOptions` and `cli.run_app` end. *)
Theorem C8_missing_credentials_abort_startup
    (to_jwt : AccessToken -> string) (WorkerOptions : Type)
    (new_WorkerOptions : list (string * KwValue) -> Result WorkerOptions)
    (run_app : WorkerOptions -> Result unit)
    (environ : gmap string string) :
  let missing (var : string) := environ !! var = None \/ environ !! var = Some "" in
  let out := main to_jwt new_WorkerOptions run_app environ in
  (missing "LIVEKIT_API_KEY" \/ missing "LIVEKIT_API_SECRET" ->
   out = ([], Raise (ValueError credentials_error))) /\
  (~ (missing "LIVEKIT_API_KEY" \/ missing "LIVEKIT_API_SECRET") ->
   out <> ([], Raise (ValueError credentials_error)) /\
   exists t,
     head (fst out) = Some (ToJwt t) /\
     snd out =
       match new_WorkerOptions (worker_kwargs (to_jwt t)) with
       | Ok opts => run_app opts
       | Raise e => Raise e
       end).
Proof.
  cbv zeta. rewrite main_cases.
  destruct (environ !! "LIVEKIT_API_KEY") as [[|a key]|];
    destruct (environ !! "LIVEKIT_API_SECRET") as [[|b secret]|]; cbn; split;
    try (intros _; reflexivity);
    try (intros H; exfalso; apply H; by eauto).
  - intros [[?|?]|[?|?]]; discriminate.
  - intros _. destruct (new_WorkerOptions _) as [opts|e] eqn:E; cbn.
    + split; [discriminate|]. eexists. split; [reflexivity|]. cbn. by rewrite E.
    + split; [discriminate|]. eexists. split; [reflexivity|]. cbn. by rewrite E.
Qed.

Lemma C8_missing_credentials_abort_startup_witness :
  main sample_to_jwt options_without_token run_app_returns key_only_environ =
    ([], Raise (ValueError credentials_error)) /\
  main sample_to_jwt options_without_token run_app_returns empty_secret_environ =
    ([], Raise (ValueError credentials_error)) /\
  main sample_to_jwt options_without_token run_app_returns full_environ <>
    ([], Raise (ValueError credentials_error)).
Proof.
  split; [|split].
  - apply (proj1 (C8_missing_credentials_abort_startup sample_to_jwt _
                    options_without_token run_app_returns key_only_environ)).
    right. left. reflexivity.
  - apply (proj1 (C8_missing_credentials_abort_startup sample_to_jwt _
                    options_without_token run_app_returns empty_secret_environ)).
    right. right. reflexivity.
  - apply (proj2 (C8_missing_credentials_abort_startup sample_to_jwt _
                    options_without_token run_app_returns full_environ)).
    intros [[H|H]|[H|H]]; vm_compute in H; discriminate H.
Defined.

(** With both credentials set: when the constructor has no parameter
    `token` the worker is never started and `__main__` ends with its
    `TypeError`; when it takes the keyword the worker is started with the
    options built from the token. *)
Example main_with_credentials :
  main sample_to_jwt options_without_token run_app_returns full_environ =
    ([ToJwt (token_builder "APIkey" "secret")],
     Raise (TypeError "WorkerOptions.__init__() got an unexpected keyword argument 'token'")) /\
  main sample_to_jwt options_with_any run_app_returns full_environ =
    ([ToJwt (token_builder "APIkey" "secret");
      RunApp (worker_kwargs "python-bot@my-room")], Ok tt).
Proof. split; reflexivity. Qed.

(* ===================================================================== *)
(* Further properties of the code                                         *)
(* ===================================================================== *)

(* --------------------------------------------------------------------- *)
(* `get_video_track` on an arbitrary room                                 *)
(* --------------------------------------------------------------------- *)

Lemma first_video_track_head (pubs : list (string * TrackPublication)) :
  first_video_track pubs = head (video_tracks_of pubs).
Proof.
  induction pubs as [|[sid pub] rest IH]; cbn; [reflexivity|].
  destruct (track pub) as [t|]; cbn; [|exact IH].
  destruct (is_remote_video_track t); cbn; [reflexivity | exact IH].
Qed.

Lemma first_video_track_Some (pubs : list (string * TrackPublication)) (t : Track) :
  first_video_track pubs = Some t ->
  is_remote_video_track t = true /\
  exists sid pub, (sid, pub) ∈ pubs /\ track pub = Some t.
Proof.
  induction pubs as [|[sid pub] rest IH]; cbn; [discriminate|].
  destruct (track pub) as [t'|] eqn:Htrack.
  - destruct (is_remote_video_track t') eqn:Hvideo.
    + intros [= ->]. split; [done|]. exists sid, pub. split; [left | done].
    + intros H. destruct (IH H) as (Hv & sid' & pub' & Hin & Ht).
      split; [done|]. exists sid', pub'. split; [by right | done].
  - intros H. destruct (IH H) as (Hv & sid' & pub' & Hin & Ht).
    split; [done|]. exists sid', pub'. split; [by right | done].
Qed.

Lemma published_video_tracks_flat (room : Room) :
  published_video_tracks room =
    flat_map (fun p => video_tracks_of (track_publications (snd p)))
             (remote_participants room).
Proof. reflexivity. Qed.

Lemma head_flat_map_omap {A B} (f : A -> list B) (l : list A) :
  head (flat_map f l) = head (omap (fun a => head (f a)) l).
Proof.
  induction l as [|a l IH]; cbn; [reflexivity|].
  destruct (f a) as [|b bs]; cbn; [exact IH | reflexivity].
Qed.

(** The scan and a single pass over the room agree on the first track. *)
Lemma head_published_video_tracks (room : Room) :
  head (published_video_tracks room) = head (participant_video_tracks room).
Proof.
  rewrite published_video_tracks_flat, head_flat_map_omap.
  unfold participant_video_tracks. f_equal.
  induction (remote_participants room) as [|p ps IH]; cbn; [reflexivity|].
  rewrite <- first_video_track_head, IH. reflexivity.
Qed.

Lemma head_None_nil {A} (l : list A) : head l = None <-> l = [].
Proof. destruct l; cbn; split; intros; congruence. Qed.

Lemma published_none_iff (room : Room) :
  published_video_tracks room = [] <-> participant_video_tracks room = [].
Proof. by rewrite <- !head_None_nil, head_published_video_tracks. Qed.

Lemma get_video_track_returned (room : Room) (t : Track) :
  get_video_track room = Returned t -> participant_video_tracks room = [t].
Proof.
  rewrite get_video_track_cases.
  destruct (participant_video_tracks room) as [|t0 [|t1 l]]; congruence.
Qed.

(** X1: what `get_video_track` does is decided by how many participants
    have a video track when it is called: with none the call stays
    suspended, with exactly one it returns a track, with two or more it
    raises `InvalidStateError`, and it raises nothing else. *)
Theorem X1_get_video_track_outcome (room : Room) :
  (get_video_track room = Suspended <-> published_video_tracks room = []) /\
  (forall t, get_video_track room = Returned t <->
             participant_video_tracks room = [t]) /\
  (forall e, get_video_track room = Raised e <->
             e = InvalidStateError /\
             (2 <= length (participant_video_tracks room))%nat).
Proof.
  rewrite published_none_iff, get_video_track_cases.
  destruct (participant_video_tracks room) as [|t [|t' l]]; cbn.
  - split; [done|]. split.
    + intros t. split; discriminate.
    + intros e. split; [discriminate | intros [_ H]; lia].
  - split; [split; discriminate|]. split.
    + intros t0. split; congruence.
    + intros e. split; [discriminate | intros [_ H]; lia].
  - split; [split; discriminate|]. split.
    + intros t0. split; discriminate.
    + intros e. split; [intros [= <-]; split; [done | lia] | by intros [-> _]].
Qed.

(** X2: a track returned by `get_video_track` is a `RemoteVideoTrack`, is
    the subscribed track of a publication of a remote participant, and is
    the first video track of the room in iteration order. *)
Theorem X2_returned_track_is_first_video (room : Room) (t : Track) :
  get_video_track room = Returned t ->
  is_remote_video_track t = true /\
  head (published_video_tracks room) = Some t /\
  exists id participant sid pub,
    (id, participant) ∈ remote_participants room /\
    (sid, pub) ∈ track_publications participant /\
    track pub = Some t.
Proof.
  intros Hret. apply get_video_track_returned in Hret.
  assert (head (participant_video_tracks room) = Some t) as Hhead
    by (by rewrite Hret).
  split; [|split; [by rewrite head_published_video_tracks|]].
  - unfold participant_video_tracks in Hret.
    assert (t ∈ omap (fun p => first_video_track (track_publications (snd p)))
                     (remote_participants room)) as Hin
      by (rewrite Hret; left).
    apply list_elem_of_omap in Hin as ([id p] & _ & Hfirst).
    by apply first_video_track_Some in Hfirst as [? _].
  - unfold participant_video_tracks in Hret.
    assert (t ∈ omap (fun p => first_video_track (track_publications (snd p)))
                     (remote_participants room)) as Hin
      by (rewrite Hret; left).
    apply list_elem_of_omap in Hin as ([id p] & Hp & Hfirst).
    apply first_video_track_Some in Hfirst as (_ & sid & pub & Hpub & Ht).
    exists id, p, sid, pub. done.
Qed.

Lemma X2_returned_track_is_first_video_witness :
  is_remote_video_track (RemoteVideoTrack "TR_cam1") = true /\
  head (published_video_tracks one_camera_room) = Some (RemoteVideoTrack "TR_cam1") /\
  exists id participant sid pub,
    (id, participant) ∈ remote_participants one_camera_room /\
    (sid, pub) ∈ track_publications participant /\
    track pub = Some (RemoteVideoTrack "TR_cam1").
Proof.
  exact (X2_returned_track_is_first_video one_camera_room
           (RemoteVideoTrack "TR_cam1") eq_refl).
Defined.

(** X3: in a room with a single remote participant `get_video_track`
    never raises, however many video tracks the participant has: it
    returns the first one, skipping publications without a subscribed
    track and audio tracks, or stays suspended when there is none. *)
Theorem X3_single_participant_never_raises
    (room : Room) (id : string) (participant : RemoteParticipant) :
  remote_participants room = [(id, participant)] ->
  get_video_track room =
    match head (video_tracks_of (track_publications participant)) with
    | Some t => Returned t
    | None => Suspended
    end.
Proof.
  intros Hone. rewrite get_video_track_cases.
  unfold participant_video_tracks. rewrite Hone. cbn.
  rewrite <- first_video_track_head.
  by destruct (first_video_track (track_publications participant)).
Qed.

Lemma X3_single_participant_never_raises_witness :
  get_video_track double_camera_room = Returned (RemoteVideoTrack "TR_cam1").
Proof.
  exact (X3_single_participant_never_raises double_camera_room "alice" _ eq_refl).
Defined.

(* --------------------------------------------------------------------- *)
(* The media loop on an arbitrary room                                    *)
(* --------------------------------------------------------------------- *)

Section MediaLoopRuns.

Variable gpt_chat : list ExtCall -> list ChatMessage -> Result LLMStream.
Variable assistant_say : list ExtCall -> SaySource -> bool -> Result unit.

Local Abbreviation step := (sys_step gpt_chat assistant_say).
Local Abbreviation run := (sys_run gpt_chat assistant_say).

(** Once `entrypoint` has ended, nothing moves it or writes `latest_image`. *)
Lemma stopped_step (a : Action) (s : System) :
  stopped (sys_pc s) = true ->
  sys_pc (step a s) = sys_pc s /\
  latest_image (sys_state (step a s)) = latest_image (sys_state s).
Proof.
  intros Hstop. destruct a; cbn.
  - unfold advance. revert Hstop.
    destruct (sys_pc s) eqn:E; cbn; intros Hstop; try discriminate Hstop; rewrite ?E; done.
  - revert Hstop. destruct (sys_pc s) eqn:E; cbn; intros Hstop; try discriminate Hstop; rewrite ?E; done.
  - revert Hstop. destruct (sys_pc s) eqn:E; cbn; intros Hstop; try discriminate Hstop; rewrite ?E; done.
  - done.
  - by rewrite spawn_pc, spawn_state.
  - by rewrite spawn_pc, spawn_state.
  - destruct (sys_tasks s) as [|[text use_image] rest]; [done|]. cbn.
    split; [done|]. unfold run_detached, run_task. apply answer_latest_image.
Qed.

Lemma stopped_forever (acts : list Action) (s : System) :
  stopped (sys_pc s) = true ->
  sys_pc (run acts s) = sys_pc s /\
  latest_image (sys_state (run acts s)) = latest_image (sys_state s).
Proof.
  revert s. induction acts as [|a acts IH]; intros s Hstop; cbn; [done|].
  destruct (stopped_step a s Hstop) as [Hpc Himg].
  assert (stopped (sys_pc (step a s)) = true) as Hstop' by (by rewrite Hpc).
  destruct (IH _ Hstop') as [Hpc' Himg']. split; congruence.
Qed.

Lemma advance_latest_image (s : System) :
  latest_image (sys_state (advance assistant_say s)) = latest_image (sys_state s).
Proof.
  unfold advance. destruct (sys_pc s) as [| |fut| | |]; try reflexivity.
  by destruct fut.
Qed.

Lemma at_while_advance (s : System) :
  sys_pc s = AtWhile ->
  sys_pc (step Advance s) =
    match connection_state (sys_room s) with
    | CONN_CONNECTED =>
        match participant_video_tracks (sys_room s) with
        | [] => AwaitingTrack None
        | [t] => AwaitingTrack (Some t)
        | _ :: _ :: _ => LoopRaised InvalidStateError
        end
    | _ => LoopExited
    end.
Proof.
  intros Hpc. cbn. unfold advance. rewrite Hpc. cbn.
  destruct (connection_state (sys_room s)); try reflexivity.
  unfold get_video_track_scan. rewrite scan_participants_pending.
  fold (participant_video_tracks (sys_room s)).
  by destruct (participant_video_tracks (sys_room s)) as [|t [|t' l]].
Qed.

(** Frames that arrive while the stream is consumed: the last one stays. *)
Lemma frames_last_wins (frames : list VideoFrame) (s : System) (t : Track) :
  sys_pc s = Streaming t ->
  sys_pc (run (FrameArrives <$> frames) s) = Streaming t /\
  latest_image (sys_state (run (FrameArrives <$> frames) s)) =
    match last frames with
    | Some frame => Some frame
    | None => latest_image (sys_state s)
    end /\
  messages (sys_state (run (FrameArrives <$> frames) s)) = messages (sys_state s).
Proof.
  revert s. induction frames as [|f frames IH]; intros s Hpc; [done|].
  cbn [fmap list_fmap sys_run]. cbn [sys_step]. rewrite Hpc.
  match goal with |- context [run _ ?s0] => destruct (IH s0 eq_refl) as (H1 & H2 & H3) end.
  split; [exact H1|]. split; [|exact H3].
  rewrite H2, last_cons. by destruct (last frames).
Qed.

End MediaLoopRuns.

(** X4: one turn of the media loop.  At the loop test in a connected
    room where exactly one participant has a video track, `entrypoint`
    takes that track, every frame of its stream overwrites `latest_image`
    so that the last frame stays, the conversation is not touched, and at
    the end of the stream `entrypoint` is back at the loop test. *)
Theorem X4_media_loop_turn
    (gpt_chat : list ExtCall -> list ChatMessage -> Result LLMStream)
    (assistant_say : list ExtCall -> SaySource -> bool -> Result unit)
    (s : System) (t : Track) (frames : list VideoFrame) (frame : VideoFrame) :
  sys_pc s = AtWhile ->
  connection_state (sys_room s) = CONN_CONNECTED ->
  participant_video_tracks (sys_room s) = [t] ->
  let taken := sys_run gpt_chat assistant_say [Advance; Advance] s in
  let done :=
    sys_run gpt_chat assistant_say
      (FrameArrives <$> (frames ++ [frame])) taken in
  sys_pc taken = Streaming t /\
  sys_pc done = Streaming t /\
  latest_image (sys_state done) = Some frame /\
  messages (sys_state done) = messages (sys_state s) /\
  sys_pc (sys_step gpt_chat assistant_say StreamEnds done) = AtWhile.
Proof.
  intros Hpc Hconn Hone. cbv zeta.
  assert (sys_pc (sys_run gpt_chat assistant_say [Advance; Advance] s) = Streaming t)
    as Htaken.
  { cbn [sys_run].
    pose proof (at_while_advance gpt_chat assistant_say s Hpc) as H1.
    rewrite Hconn, Hone in H1. cbn [sys_step] in *.
    unfold advance at 1. by rewrite H1. }
  destruct (frames_last_wins gpt_chat assistant_say (frames ++ [frame]) _ t Htaken)
    as (Hpc' & Himg & Hms).
  split; [exact Htaken|]. split; [exact Hpc'|]. split; [|split].
  - rewrite Himg, last_snoc. reflexivity.
  - rewrite Hms. cbn [sys_run sys_step].
    by rewrite !advance_messages.
  - cbn [sys_step]. by rewrite Hpc'.
Qed.

Lemma X4_media_loop_turn_witness :
  let taken := sys_run chat_ok say_ok [Advance; Advance] (at_while one_camera_room) in
  let done :=
    sys_run chat_ok say_ok (FrameArrives <$> ([sample_frame] ++ [other_frame])) taken in
  sys_pc taken = Streaming (RemoteVideoTrack "TR_cam1") /\
  sys_pc done = Streaming (RemoteVideoTrack "TR_cam1") /\
  latest_image (sys_state done) = Some other_frame /\
  messages (sys_state done) = messages (sys_state (at_while one_camera_room)) /\
  sys_pc (sys_step chat_ok say_ok StreamEnds done) = AtWhile.
Proof.
  exact (X4_media_loop_turn chat_ok say_ok (at_while one_camera_room)
           (RemoteVideoTrack "TR_cam1") [sample_frame] other_frame
           eq_refl eq_refl eq_refl).
Defined.

(** X5: at the loop test in a connected room where no participant has a
    video track, `entrypoint` suspends on the pending future and never
    resumes, whatever happens afterwards (tracks published, frames,
    connection lost): `latest_image` is never written again. *)
Theorem X5_no_video_at_loop_test_suspends_forever
    (gpt_chat : list ExtCall -> list ChatMessage -> Result LLMStream)
    (assistant_say : list ExtCall -> SaySource -> bool -> Result unit)
    (s : System) (acts : list Action) :
  sys_pc s = AtWhile ->
  connection_state (sys_room s) = CONN_CONNECTED ->
  published_video_tracks (sys_room s) = [] ->
  let s' := sys_run gpt_chat assistant_say (Advance :: acts) s in
  sys_pc s' = AwaitingTrack None /\
  latest_image (sys_state s') = latest_image (sys_state s).
Proof.
  intros Hpc Hconn Hnone. cbv zeta. cbn [sys_run].
  apply published_none_iff in Hnone.
  pose proof (at_while_advance gpt_chat assistant_say s Hpc) as H1.
  rewrite Hconn, Hnone in H1.
  destruct (awaiting_pending_forever gpt_chat assistant_say acts _ H1) as [H2 H3].
  split; [exact H2|]. rewrite H3. cbn [sys_step]. apply advance_latest_image.
Qed.

Lemma X5_no_video_at_loop_test_suspends_forever_witness :
  let s' := sys_run chat_ok say_ok
              (Advance :: [RoomChanges one_camera_room; Advance;
                           FrameArrives sample_frame; StreamEnds; Advance])
              (at_while empty_room) in
  sys_pc s' = AwaitingTrack None /\
  latest_image (sys_state s') = latest_image (sys_state (at_while empty_room)).
Proof.
  exact (X5_no_video_at_loop_test_suspends_forever chat_ok say_ok (at_while empty_room)
           _ eq_refl eq_refl eq_refl).
Defined.

(** X6: at the loop test in a connected room where two or more
    participants have a video track, `entrypoint` ends with
    `InvalidStateError`; from then on no frame is ever stored. *)
Theorem X6_two_video_participants_end_the_loop
    (gpt_chat : list ExtCall -> list ChatMessage -> Result LLMStream)
    (assistant_say : list ExtCall -> SaySource -> bool -> Result unit)
    (s : System) (acts : list Action) :
  sys_pc s = AtWhile ->
  connection_state (sys_room s) = CONN_CONNECTED ->
  (2 <= length (participant_video_tracks (sys_room s)))%nat ->
  let s' := sys_run gpt_chat assistant_say (Advance :: acts) s in
  sys_pc s' = LoopRaised InvalidStateError /\
  latest_image (sys_state s') = latest_image (sys_state s).
Proof.
  intros Hpc Hconn Htwo. cbv zeta. cbn [sys_run].
  pose proof (at_while_advance gpt_chat assistant_say s Hpc) as H1.
  rewrite Hconn in H1.
  destruct (participant_video_tracks (sys_room s)) as [|t [|t' l]];
    [cbn in Htwo; lia | cbn in Htwo; lia |].
  assert (stopped (sys_pc (sys_step gpt_chat assistant_say Advance s)) = true)
    as Hstop by (by rewrite H1).
  destruct (stopped_forever gpt_chat assistant_say acts _ Hstop) as [H2 H3].
  split; [by rewrite H2|]. rewrite H3. cbn [sys_step]. apply advance_latest_image.
Qed.

Lemma X6_two_video_participants_end_the_loop_witness :
  let s' := sys_run chat_ok say_ok
              (Advance :: [Advance; FrameArrives sample_frame; RoomChanges one_camera_room;
                           Advance])
              (at_while two_camera_room) in
  sys_pc s' = LoopRaised InvalidStateError /\
  latest_image (sys_state s') = latest_image (sys_state (at_while two_camera_room)).
Proof.
  apply (X6_two_video_participants_end_the_loop chat_ok say_ok (at_while two_camera_room));
    [reflexivity | reflexivity | cbn; lia].
Defined.

(** X7: at the loop test in a room that is not connected the loop is left
    without a scan of the room, and it is never entered again, also when
    the room reconnects and tracks appear. *)
Theorem X7_disconnected_at_loop_test_exits_for_good
    (gpt_chat : list ExtCall -> list ChatMessage -> Result LLMStream)
    (assistant_say : list ExtCall -> SaySource -> bool -> Result unit)
    (s : System) (acts : list Action) :
  sys_pc s = AtWhile ->
  connection_state (sys_room s) <> CONN_CONNECTED ->
  let s' := sys_run gpt_chat assistant_say (Advance :: acts) s in
  sys_pc s' = LoopExited /\
  latest_image (sys_state s') = latest_image (sys_state s).
Proof.
  intros Hpc Hconn. cbv zeta. cbn [sys_run].
  pose proof (at_while_advance gpt_chat assistant_say s Hpc) as H1.
  assert (sys_pc (sys_step gpt_chat assistant_say Advance s) = LoopExited) as Hexit.
  { rewrite H1. by destruct (connection_state (sys_room s)). }
  assert (stopped (sys_pc (sys_step gpt_chat assistant_say Advance s)) = true)
    as Hstop by (by rewrite Hexit).
  destruct (stopped_forever gpt_chat assistant_say acts _ Hstop) as [H2 H3].
  split; [by rewrite H2|]. rewrite H3. cbn [sys_step]. apply advance_latest_image.
Qed.

Lemma X7_disconnected_at_loop_test_exits_for_good_witness :
  let s' := sys_run chat_ok say_ok
              (Advance :: [RoomChanges one_camera_room; Advance; Advance;
                           FrameArrives sample_frame])
              (at_while (disconnected two_camera_room)) in
  sys_pc s' = LoopExited /\
  latest_image (sys_state s') =
    latest_image (sys_state (at_while (disconnected two_camera_room))).
Proof.
  apply (X7_disconnected_at_loop_test_exits_for_good chat_ok say_ok
           (at_while (disconnected two_camera_room)));
    [reflexivity | discriminate].
Defined.

(* --------------------------------------------------------------------- *)
(* From a trigger to the user turn                                        *)
(* --------------------------------------------------------------------- *)

Lemma task_turn_latest_image (st1 st2 : State) (t : Task) :
  latest_image st1 = latest_image st2 -> task_turn st1 t = task_turn st2 t.
Proof. intros H. destruct t. unfold task_turn, user_turn. by rewrite H. Qed.

Section TaskRuns.

Variable gpt_chat : list ExtCall -> list ChatMessage -> Result LLMStream.
Variable assistant_say : list ExtCall -> SaySource -> bool -> Result unit.

Local Abbreviation step := (sys_step gpt_chat assistant_say).
Local Abbreviation run := (sys_run gpt_chat assistant_say).

(** The oldest task runs: its turn is appended, the rest is as before. *)
Lemma task_runs (s : System) (t : Task) (rest : list Task) :
  sys_tasks s = t :: rest ->
  messages (sys_state (step TaskRuns s)) =
    messages (sys_state s) ++ [task_turn (sys_state s) t] /\
  latest_image (sys_state (step TaskRuns s)) = latest_image (sys_state s) /\
  sys_tasks (step TaskRuns s) = rest /\
  sys_pc (step TaskRuns s) = sys_pc s /\
  sys_room (step TaskRuns s) = sys_room s.
Proof.
  intros Hq. cbn. rewrite Hq. cbn. destruct t as [text use_image].
  unfold run_detached, run_task.
  by rewrite answer_messages, answer_latest_image.
Qed.

Lemma drain_tasks (tasks : list Task) (s : System) :
  sys_tasks s = tasks ->
  let s' := run (replicate (length tasks) TaskRuns) s in
  messages (sys_state s') =
    messages (sys_state s) ++ (task_turn (sys_state s) <$> tasks) /\
  latest_image (sys_state s') = latest_image (sys_state s) /\
  sys_tasks s' = [] /\
  sys_pc s' = sys_pc s /\
  sys_room s' = sys_room s.
Proof.
  revert s. induction tasks as [|t tasks IH]; intros s Hq; cbv zeta.
  - cbn. by rewrite app_nil_r.
  - cbn [length replicate sys_run].
    destruct (task_runs s t tasks Hq) as (Hms & Himg & Hq' & Hpc & Hroom).
    destruct (IH _ Hq') as (Hms' & Himg' & Hq'' & Hpc' & Hroom').
    cbv zeta in *. rewrite Hms', Himg', Hq'', Hpc', Hroom', Hms, Himg, Hpc, Hroom.
    split; [|done]. rewrite fmap_cons, <- app_assoc. cbn [app]. do 2 f_equal.
    apply list_fmap_ext. intros _ t' _. by apply task_turn_latest_image.
Qed.

End TaskRuns.

(** X8: a chat message with a non-empty text changes nothing until its
    task runs; when the task runs, the text alone is appended as a user
    turn, with no image even if a frame is held, and the media loop and
    `latest_image` are as before. *)
Theorem X8_chat_message_end_to_end
    (gpt_chat : list ExtCall -> list ChatMessage -> Result LLMStream)
    (assistant_say : list ExtCall -> SaySource -> bool -> Result unit)
    (s : System) (T : string) :
  sys_tasks s = [] ->
  T <> "" ->
  let queued :=
    sys_step gpt_chat assistant_say (ChatMessageReceived {| message := Some T |}) s in
  let s' := sys_step gpt_chat assistant_say TaskRuns queued in
  sys_state queued = sys_state s /\
  messages (sys_state s') =
    messages (sys_state s) ++ [{| role := "user"; content := ContentList [CText T] |}] /\
  latest_image (sys_state s') = latest_image (sys_state s) /\
  sys_tasks s' = [] /\
  sys_pc s' = sys_pc s.
Proof.
  intros Hq Hne. cbv zeta.
  assert (sys_step gpt_chat assistant_say (ChatMessageReceived {| message := Some T |}) s
          = {| sys_room := sys_room s; sys_pc := sys_pc s; sys_state := sys_state s;
               sys_tasks := [AnswerTask T false] |}) as ->.
  { cbn [sys_step]. rewrite on_message_received_text.
    apply str_truthy_true in Hne. rewrite Hne. cbn. by rewrite Hq. }
  split; [reflexivity|].
  match goal with |- context [sys_step _ _ TaskRuns ?q] =>
    destruct (task_runs gpt_chat assistant_say q (AnswerTask T false) [] eq_refl)
      as (Hms & Himg & Hq' & Hpc & _) end.
  rewrite Hms, Himg, Hq', Hpc. cbn.
  unfold user_turn, answer_content. cbn. done.
Qed.

Lemma X8_chat_message_end_to_end_witness :
  let queued :=
    sys_step chat_fails say_ok
      (ChatMessageReceived {| message := Some "What's the weather?" |})
      (streaming one_camera_room) in
  let s' := sys_step chat_fails say_ok TaskRuns queued in
  sys_state queued = sys_state (streaming one_camera_room) /\
  messages (sys_state s') =
    messages (sys_state (streaming one_camera_room)) ++
      [{| role := "user"; content := ContentList [CText "What's the weather?"] |}] /\
  latest_image (sys_state s') = latest_image (sys_state (streaming one_camera_room)) /\
  sys_tasks s' = [] /\
  sys_pc s' = sys_pc (streaming one_camera_room).
Proof.
  apply (X8_chat_message_end_to_end chat_fails say_ok (streaming one_camera_room)
           "What's the weather?"); [reflexivity | discriminate].
Defined.

(** X9: the frame of an image answer is the one held when the task runs,
    not the one held when the function call finished: a frame that arrives
    between the event and the run of its task is the one appended. *)
Theorem X9_image_answer_uses_frame_at_run_time
    (gpt_chat : list ExtCall -> list ChatMessage -> Result LLMStream)
    (assistant_say : list ExtCall -> SaySource -> bool -> Result unit)
    (s : System) (t : Track) (first : CalledFunction) (rest : list CalledFunction)
    (user_msg : string) (frame : VideoFrame) :
  sys_tasks s = [] ->
  sys_pc s = Streaming t ->
  arguments (call_info first) !! "user_msg" = Some user_msg ->
  user_msg <> "" ->
  let s' := sys_run gpt_chat assistant_say
              [FunctionCallsFinished (first :: rest); FrameArrives frame; TaskRuns] s in
  messages (sys_state s') =
    messages (sys_state s) ++
      [{| role := "user";
          content := ContentList [CText user_msg; CImage {| image := frame |}] |}] /\
  sys_tasks s' = [].
Proof.
  intros Hq Hpc Hget Hne. cbv zeta. cbn [sys_run].
  assert (sys_step gpt_chat assistant_say (FunctionCallsFinished (first :: rest)) s
          = {| sys_room := sys_room s; sys_pc := sys_pc s; sys_state := sys_state s;
               sys_tasks := [AnswerTask user_msg true] |}) as ->.
  { cbn [sys_step]. rewrite on_function_calls_finished_cons, Hget.
    apply str_truthy_true in Hne. rewrite Hne. cbn. by rewrite Hq. }
  cbn [sys_step sys_pc]. rewrite Hpc. cbn [sys_tasks sys_state sys_room sys_pc].
  unfold run_detached, run_task. rewrite answer_messages. done.
Qed.

Lemma X9_image_answer_uses_frame_at_run_time_witness :
  let s' := sys_run chat_ok say_ok
              [FunctionCallsFinished
                 [image_call "a" {[ "user_msg" := "describe what you see" ]}];
               FrameArrives other_frame; TaskRuns]
              (streaming one_camera_room) in
  messages (sys_state s') =
    messages (sys_state (streaming one_camera_room)) ++
      [{| role := "user";
          content := ContentList [CText "describe what you see";
                                  CImage {| image := other_frame |}] |}] /\
  sys_tasks s' = [].
Proof.
  apply (X9_image_answer_uses_frame_at_run_time chat_ok say_ok
           (streaming one_camera_room) (RemoteVideoTrack "TR_cam1")
           (image_call "a" {[ "user_msg" := "describe what you see" ]}) []
           "describe what you see" other_frame);
    [reflexivity | reflexivity | reflexivity | discriminate].
Defined.

(** X10: tasks run in the order they were created and none is lost: when
    all waiting tasks have run, the conversation has grown by their user
    turns in creation order, whether the language model or the speech call
    answered or raised; the media loop and `latest_image` are untouched. *)
Theorem X10_tasks_drain_in_creation_order
    (gpt_chat : list ExtCall -> list ChatMessage -> Result LLMStream)
    (assistant_say : list ExtCall -> SaySource -> bool -> Result unit)
    (s : System) :
  let s' := sys_run gpt_chat assistant_say
              (replicate (length (sys_tasks s)) TaskRuns) s in
  messages (sys_state s') =
    messages (sys_state s) ++ (task_turn (sys_state s) <$> sys_tasks s) /\
  latest_image (sys_state s') = latest_image (sys_state s) /\
  sys_tasks s' = [] /\
  sys_pc s' = sys_pc s /\
  sys_room s' = sys_room s.
Proof. exact (drain_tasks gpt_chat assistant_say (sys_tasks s) s eq_refl). Qed.

(** Three waiting tasks, the language model failing each time. *)
Example drain_three_tasks :
  messages (sys_state (sys_run chat_fails say_ok [TaskRuns; TaskRuns; TaskRuns] three_tasks)) =
    chat_context ++
      [{| role := "user"; content := ContentList [CText "uno"] |};
       {| role := "user";
          content := ContentList [CText "due"; CImage {| image := sample_frame |}] |};
       {| role := "user"; content := ContentList [CText "tre"] |}].
Proof. reflexivity. Qed.

(** X11: the framework calls of one `_answer`: the language model is
    called once, on the conversation that ends with the new user turn; the
    speech call is made only if the model call returned, with the stream
    it returned and interruptions allowed; nothing else is called. *)
Theorem X11_speech_only_after_model_returns
    (gpt_chat : list ExtCall -> list ChatMessage -> Result LLMStream)
    (assistant_say : list ExtCall -> SaySource -> bool -> Result unit)
    (text : string) (use_image : bool) (st : State) :
  let st' := fst (_answer gpt_chat assistant_say text use_image st) in
  calls st' =
    calls st ++
      CallChat (messages st') ::
      match gpt_chat (calls st) (messages st') with
      | Ok stream => [CallSay (SayStream stream) true]
      | Raise _ => []
      end.
Proof.
  cbv zeta. rewrite answer_messages.
  pose proof (answer_unfold gpt_chat assistant_say text use_image st) as H.
  cbv zeta in H. rewrite H.
  destruct (gpt_chat _ _); cbn; [by rewrite <- app_assoc | reflexivity].
Qed.

(* --------------------------------------------------------------------- *)
(* What `_answer` gives the language model                                *)
(* --------------------------------------------------------------------- *)



(** X14: `latest_image` has a single writer: the only action that changes
    it is a frame of the stream arriving while `entrypoint` is inside the
    `async for`, and it then holds that frame; `_answer`, the handlers and
    room changes never write it. *)
Theorem X14_latest_image_single_writer
    (gpt_chat : list ExtCall -> list ChatMessage -> Result LLMStream)
    (assistant_say : list ExtCall -> SaySource -> bool -> Result unit)
    (a : Action) (s : System) :
  latest_image (sys_state (sys_step gpt_chat assistant_say a s)) <>
    latest_image (sys_state s) ->
  exists frame t,
    a = FrameArrives frame /\
    sys_pc s = Streaming t /\
    latest_image (sys_state (sys_step gpt_chat assistant_say a s)) = Some frame.
Proof.
  destruct a; cbn [sys_step].
  - rewrite advance_latest_image. done.
  - destruct (sys_pc s) as [| |fut|t| |] eqn:Hpc; try done.
    intros _. by exists frame, t.
  - by destruct (sys_pc s).
  - done.
  - by rewrite spawn_state.
  - by rewrite spawn_state.
  - destruct (sys_tasks s) as [|[text use_image] rest]; [done|]. cbn.
    unfold run_detached, run_task. by rewrite answer_latest_image.
Qed.

Lemma X14_latest_image_single_writer_witness :
  exists frame t,
    FrameArrives sample_frame = FrameArrives frame /\
    sys_pc (streaming one_camera_room) = Streaming t /\
    latest_image (sys_state (sys_step chat_ok say_ok (FrameArrives sample_frame)
                               (streaming one_camera_room))) = Some frame.
Proof.
  apply (X14_latest_image_single_writer chat_ok say_ok (FrameArrives sample_frame)
           (streaming one_camera_room)).
  discriminate.
Defined.
